(** * Poster session areas of a Covey.Town server

    A shallow embedding of [src/town/PosterSessionArea.ts] and of the
    collaborators it is used with, followed by the properties of the
    interactable-area core that are established on it.

    Conventions of the embedding.
    - A JavaScript [number] that holds a star count or a map coordinate is an
      integer of [Z]; [Math.abs] is [Z.abs].
    - [string | undefined] is [option string]; [undefined] is [None].
    - An object with mutable fields is a record, and a method that writes
      fields returns the updated record.
    - The town emitter is shared by every area of a town.  It is modelled by
      the list of the events emitted so far, oldest first, which is threaded
      through every method that may emit.
    - [throw new Error (msg)] is [Throw (Error msg)] in the [Result] type. *)

From Stdlib Require Import ZArith List String Bool Lia.
Import ListNotations.

Local Open Scope string_scope.
Local Open Scope list_scope.
Local Open Scope Z_scope.

(** ** Exceptions *)

Inductive JsError : Type :=
| Error (message : string).

Inductive Result (A : Type) : Type :=
| Ok (value : A)
| Throw (e : JsError).

Arguments Ok {A} value.
Arguments Throw {A} e.

Definition bind {A B : Type} (r : Result A) (k : A -> Result B) : Result B :=
  match r with
  | Ok a => k a
  | Throw e => Throw e
  end.

(** [try { body } catch (e) { handler e }] *)
Definition try_catch {A : Type} (body : Result A) (handler : JsError -> Result A)
  : Result A :=
  match body with
  | Ok a => Ok a
  | Throw e => handler e
  end.

Notation "x <- r ;; k" := (bind r (fun x => k))
  (at level 61, r at next level, right associativity).

(** ** Types of [types/CoveyTownSocket] and of the tiled map

    The declarations are not among the sources; the records list the fields
    that [PosterSessionArea.ts] reads and writes. *)

Module CoveyTownSocket.

Record BoundingBox : Type := mkBoundingBox {
  x : Z;
  y : Z;
  width : Z;
  height : Z
}.

(** The transportable model of a poster session area. *)
Record PosterSessionArea : Type := mkModel {
  id : string;
  stars : Z;
  imageContents : option string;
  title : option string
}.

(** What is sent through a [TownEmitter].  [interactableUpdate] is the
    change event of an area; every other event of the town is kept by its
    name only. *)
Inductive TownEvent : Type :=
| interactableUpdate (model : PosterSessionArea)
| otherEvent (name : string).

(** The events emitted so far, oldest first. *)
Definition TownEmitter : Type := list TownEvent.

Definition emit (ev : TownEvent) (townEmitter : TownEmitter) : TownEmitter :=
  townEmitter ++ [ev].

Definition is_interactableUpdate (ev : TownEvent) : bool :=
  match ev with
  | interactableUpdate _ => true
  | otherEvent _ => false
  end.

(** The change events among a list of events. *)
Definition changeEvents (evs : list TownEvent) : list TownEvent :=
  filter is_interactableUpdate evs.

End CoveyTownSocket.

Abbreviation PosterSessionAreaModel := CoveyTownSocket.PosterSessionArea.
Abbreviation BoundingBox := CoveyTownSocket.BoundingBox.
Abbreviation TownEvent := CoveyTownSocket.TownEvent.
Abbreviation TownEmitter := CoveyTownSocket.TownEmitter.
Abbreviation interactableUpdate := CoveyTownSocket.interactableUpdate.
Abbreviation otherEvent := CoveyTownSocket.otherEvent.
Abbreviation changeEvents := CoveyTownSocket.changeEvents.

(** A player is identified by its id; [!==] on players is inequality of ids. *)
Definition Player : Type := string.

(** The fields of [ITiledMapObject] that [fromMapObject] reads.  [width] and
    [height] are optional in a tiled map object. *)
Record ITiledMapObject : Type := mkMapObject {
  mo_name : string;
  mo_x : Z;
  mo_y : Z;
  mo_width : option Z;
  mo_height : option Z
}.

(** [!v] for [v : number | undefined]: [undefined] and [0] are falsy. *)
Definition falsy (v : option Z) : bool :=
  match v with
  | None => true
  | Some n => n =? 0
  end.

Definition Math_abs (n : Z) : Z := Z.abs n.

(** ** The class [PosterSessionArea] *)

Module PosterSessionArea.

(** An instance: the fields inherited from [InteractableArea] followed by
    the three private fields of the class. *)
Record t : Type := mkArea {
  _id : string;
  _boundingBox : BoundingBox;
  _occupants : list Player;
  _stars : Z;
  _title : option string;
  _imageContents : option string
}.

Definition id (this : t) : string := _id this.
Definition stars (this : t) : Z := _stars this.
Definition title (this : t) : option string := _title this.
Definition imageContents (this : t) : option string := _imageContents this.

(** Modelled from the spec: the constructor of [InteractableArea], which is
    not among the sources.  It fixes the identifier and the bounding region
    and starts with no occupant; the three content fields are filled in by
    the constructor of the subclass. *)
Definition super (id : string) (coordinates : BoundingBox) : t :=
  {| _id := id; _boundingBox := coordinates; _occupants := [];
     _stars := 0; _title := None; _imageContents := None |}.

Definition constructor (model : PosterSessionAreaModel) (coordinates : BoundingBox)
  : Result t :=
  let this := super (CoveyTownSocket.id model) coordinates in
  s <- try_catch (Ok (Math_abs (CoveyTownSocket.stars model)))
         (fun _ => Throw (Error "Star rating not given")) ;;
  i <- try_catch (Ok (CoveyTownSocket.imageContents model))
         (fun _ => Throw (Error "Image content not given or invalid")) ;;
  t <- try_catch (Ok (CoveyTownSocket.title model))
         (fun _ => Throw (Error "Title was not given or is invalid")) ;;
  Ok {| _id := _id this; _boundingBox := _boundingBox this;
        _occupants := _occupants this;
        _stars := s; _title := t; _imageContents := i |}.

(** [updateModel] has the emitter of the town at hand, as every method of
    the class has, and does not use it. *)
Definition updateModel (updatedModel : PosterSessionAreaModel) (this : t)
  (townEmitter : TownEmitter) : t * TownEmitter :=
  ({| _id := _id this; _boundingBox := _boundingBox this;
      _occupants := _occupants this;
      _stars := Math_abs (CoveyTownSocket.stars updatedModel);
      _title := CoveyTownSocket.title updatedModel;
      _imageContents := CoveyTownSocket.imageContents updatedModel |},
   townEmitter).

Definition toModel (this : t) : PosterSessionAreaModel :=
  {| CoveyTownSocket.id := id this;
     CoveyTownSocket.stars := stars this;
     CoveyTownSocket.imageContents := imageContents this;
     CoveyTownSocket.title := title this |}.

Definition fromMapObject (mapObject : ITiledMapObject) : Result t :=
  let name := mo_name mapObject in
  let width := mo_width mapObject in
  let height := mo_height mapObject in
  if falsy width || falsy height then
    Throw (Error "Missing width and/or height in mapObject.")
  else
    let newPosterSessionAreaModel :=
      {| CoveyTownSocket.id := name;
         CoveyTownSocket.stars := 0;
         CoveyTownSocket.imageContents := None;
         CoveyTownSocket.title := None |} in
    (* [width] and [height] are numbers here: the guard has excluded
       [undefined] *)
    let coordinate :=
      {| CoveyTownSocket.x := mo_x mapObject;
         CoveyTownSocket.y := mo_y mapObject;
         CoveyTownSocket.width := match width with Some w => w | None => 0 end;
         CoveyTownSocket.height := match height with Some h => h | None => 0 end |} in
    constructor newPosterSessionAreaModel coordinate.


(** *** What the class inherits from [InteractableArea]

    [InteractableArea.ts] is not among the sources. *)

(** Modelled from the spec: [_emitAreaChanged] of [InteractableArea], which
    publishes the current serialisable model of the area through the
    broadcaster of the town as an [interactableUpdate]. *)
Definition _emitAreaChanged (this : t) (townEmitter : TownEmitter) : TownEmitter :=
  CoveyTownSocket.emit (interactableUpdate (toModel this)) townEmitter.

Definition set_occupants (occupants : list Player) (this : t) : t :=
  {| _id := _id this; _boundingBox := _boundingBox this;
     _occupants := occupants;
     _stars := _stars this; _title := _title this;
     _imageContents := _imageContents this |}.

Section Remove.

(** The events that [InteractableArea.remove] sends through the town
    emitter on its own when [player] leaves [this].  The base class is
    not among the sources, so they are a parameter of the model. *)
Variable super_remove_emits : Player -> t -> list TownEvent.

(** Modelled from the spec: [remove] of [InteractableArea], which takes
    the player out of the occupants.  The content fields are private to
    the subclass and are left as they are. *)
Definition super_remove (player : Player) (this : t) (townEmitter : TownEmitter)
  : t * TownEmitter :=
  (set_occupants
     (filter (fun eachPlayer => negb (String.eqb eachPlayer player))
        (_occupants this)) this,
   townEmitter ++ super_remove_emits player this).

Definition remove (player : Player) (this : t) (townEmitter : TownEmitter)
  : t * TownEmitter :=
  let (this, townEmitter) := super_remove player this townEmitter in
  if Z.of_nat (List.length (_occupants this)) <=? 0 then
    let this :=
      {| _id := _id this; _boundingBox := _boundingBox this;
         _occupants := _occupants this;
         _stars := 0; _title := None; _imageContents := None |} in
    (this, _emitAreaChanged this townEmitter)
  else (this, townEmitter).

(** *** Reachable states

    A state is an instance together with the events its town has emitted.
    The instance is written by [updateModel], by [remove] and by the
    members inherited from the base class; the latter change occupants
    and may emit, and cannot write the private content fields.  Other
    areas of the town emit through the same emitter. *)
Inductive step : t * TownEmitter -> t * TownEmitter -> Prop :=
| step_updateModel (updatedModel : PosterSessionAreaModel) this townEmitter :
    step (this, townEmitter) (updateModel updatedModel this townEmitter)
| step_remove (player : Player) this townEmitter :
    step (this, townEmitter) (remove player this townEmitter)
| step_inherited (occupants : list Player) (emitted : list TownEvent)
    this townEmitter :
    step (this, townEmitter)
      (set_occupants occupants this, townEmitter ++ emitted).

Inductive reachable : t * TownEmitter -> Prop :=
| reachable_new model coordinates this townEmitter :
    constructor model coordinates = Ok this ->
    reachable (this, townEmitter)
| reachable_step st st' :
    reachable st -> step st st' -> reachable st'.

End Remove.

End PosterSessionArea.

(** ** The area dispatcher

    [TownsController.ts], [Town.ts] and [TownsStore.ts] are not among the
    sources: only the test of the controller is.  The definitions of this
    module follow the specification of the dispatcher, and they call the
    methods of [PosterSessionArea] given above. *)

Module TownsController.

(** Modelled from the spec: the interactables of a town, which are not
    among the sources.  An interactable is a poster session area or an area
    of another variant, of which only the identifier matters here. *)
Inductive Interactable : Type :=
| PosterArea (area : PosterSessionArea.t)
| OtherArea (id : string).

(** Modelled from the spec: the identifier of an interactable, unique within
    its town. *)
Definition interactableID (i : Interactable) : string :=
  match i with
  | PosterArea area => PosterSessionArea.id area
  | OtherArea id => id
  end.

(** Modelled from the spec: a town, which is not among the sources.  It has
    an identifier, the session tokens of its joined players, its
    interactable areas and one broadcaster. *)
Record Town : Type := mkTown {
  townID : string;
  sessions : list (string * Player);
  interactables : list Interactable;
  townEmitter : TownEmitter
}.

(** Modelled from the spec: the registry of the towns, which is not among
    the sources. *)
Definition TownsStore : Type := list Town.

(** Modelled from the spec: the error kinds of the dispatcher, which the
    sources do not declare. *)
Inductive DispatchError : Type :=
| InvalidTownIDError
| InvalidSessionTokenError
| InvalidInteractableIDError
| ValidationError.

(** Modelled from the spec: an operation of the dispatcher succeeds with a
    value or is rejected with an error. *)
Inductive Outcome (A : Type) : Type :=
| Done (value : A)
| Rejected (e : DispatchError).

Arguments Done {A} value.
Arguments Rejected {A} e.

(** Modelled from the spec: the lookup of a town by its identifier. *)
Definition getTownByID (store : TownsStore) (id : string) : option Town :=
  find (fun town => String.eqb (townID town) id) store.

(** Modelled from the spec: the session resolver, which gives the joined
    player that holds the token. *)
Definition getPlayerBySessionToken (town : Town) (token : string) : option Player :=
  option_map snd (find (fun s => String.eqb (fst s) token) (sessions town)).

(** Modelled from the spec: the lookup of an area of a town by its
    identifier. *)
Definition getInteractable (town : Town) (id : string) : option Interactable :=
  find (fun i => String.eqb (interactableID i) id) (interactables town).

(** Modelled from the spec: the target area exists and is of the poster
    variant. *)
Definition getPosterSessionArea (town : Town) (id : string)
  : option PosterSessionArea.t :=
  match getInteractable town id with
  | Some (PosterArea area) => Some area
  | _ => None
  end.

(** Modelled from the spec: a field of the payload is present and not
    empty. *)
Definition nonEmpty (field : option string) : bool :=
  match field with
  | Some s => negb (String.eqb s "")
  | None => false
  end.

(** Modelled from the spec: the payload check of a create or update, which
    wants a title and an image payload that are both present and not
    empty. *)
Definition validPayload (model : PosterSessionAreaModel) : bool :=
  nonEmpty (CoveyTownSocket.title model)
  && nonEmpty (CoveyTownSocket.imageContents model).

(** Modelled from the spec: the area of a town and the town of a store are
    objects that are mutated in place; writing back replaces the entry of the
    same identifier. *)
Definition putArea (area : PosterSessionArea.t) (town : Town) : Town :=
  {| townID := townID town;
     sessions := sessions town;
     interactables :=
       map (fun i =>
              if String.eqb (interactableID i) (PosterSessionArea.id area)
              then PosterArea area else i)
           (interactables town);
     townEmitter := townEmitter town |}.

(** Modelled from the spec: the town after its broadcaster has emitted. *)
Definition setEmitter (em : TownEmitter) (town : Town) : Town :=
  {| townID := townID town;
     sessions := sessions town;
     interactables := interactables town;
     townEmitter := em |}.

(** Modelled from the spec: the store after a town has been mutated. *)
Definition putTown (town : Town) (store : TownsStore) : TownsStore :=
  map (fun each => if String.eqb (townID each) (townID town) then town else each)
      store.

(** Modelled from the spec: checks 1 to 3 of every operation of the
    dispatcher, in their order: the town exists, the token resolves to a
    joined player of that town, the target exists and is a poster area. *)
Definition resolve (store : TownsStore) (town_id token area_id : string)
  : Outcome (Town * PosterSessionArea.t) :=
  match getTownByID store town_id with
  | None => Rejected InvalidTownIDError
  | Some town =>
      match getPlayerBySessionToken town token with
      | None => Rejected InvalidSessionTokenError
      | Some _ =>
          match getPosterSessionArea town area_id with
          | None => Rejected InvalidInteractableIDError
          | Some area => Done (town, area)
          end
      end
  end.

(** Modelled from the spec: a successful operation writes the mutated area
    back and then calls [_emitAreaChanged], once. *)
Definition commit (store : TownsStore) (town : Town)
  (mutated : PosterSessionArea.t * TownEmitter) : TownsStore :=
  let (area, em) := mutated in
  let em := PosterSessionArea._emitAreaChanged area em in
  putTown (setEmitter em (putArea area town)) store.

(** Modelled from the spec: [createPosterSessionArea] of the controller,
    which is not among the sources.  It runs the four checks; on success it
    calls [updateModel], then emits, and returns nothing.  A rejected call
    leaves the store as it was. *)
Definition createPosterSessionArea
  (store : TownsStore) (town_id token : string) (model : PosterSessionAreaModel)
  : Outcome unit * TownsStore :=
  match resolve store town_id token (CoveyTownSocket.id model) with
  | Rejected e => (Rejected e, store)
  | Done (town, area) =>
      if validPayload model then
        (Done tt,
         commit store town
           (PosterSessionArea.updateModel model area (townEmitter town)))
      else (Rejected ValidationError, store)
  end.

(** Modelled from the spec: the payload of an increment, which is the
    current model of the area with one more star. *)
Definition oneMoreStar (area : PosterSessionArea.t) : PosterSessionAreaModel :=
  let current := PosterSessionArea.toModel area in
  {| CoveyTownSocket.id := CoveyTownSocket.id current;
     CoveyTownSocket.stars := CoveyTownSocket.stars current + 1;
     CoveyTownSocket.imageContents := CoveyTownSocket.imageContents current;
     CoveyTownSocket.title := CoveyTownSocket.title current |}.

(** Modelled from the spec: [incrementPosterAreaStars] of the controller,
    which is not among the sources.  It runs checks 1 to 3, increments,
    emits and returns the new count.  The increment is written with
    [updateModel], the method of the class that stores a star count, called
    with the current model and one more star; in every reachable state this
    stores what [incrementStars] stores. *)
Definition incrementPosterAreaStars
  (store : TownsStore) (town_id area_id token : string)
  : Outcome Z * TownsStore :=
  match resolve store town_id token area_id with
  | Rejected e => (Rejected e, store)
  | Done (town, area) =>
      let mutated :=
        PosterSessionArea.updateModel (oneMoreStar area) area (townEmitter town) in
      (Done (PosterSessionArea.stars (fst mutated)), commit store town mutated)
  end.

(** Modelled from the spec: [getPosterAreaImageContents] of the controller,
    which is not among the sources.  It runs checks 1 to 3 and returns the
    current image payload of the area, without a mutation and without a
    broadcast. *)
Definition getPosterAreaImageContents
  (store : TownsStore) (town_id area_id token : string)
  : Outcome (option string) * TownsStore :=
  match resolve store town_id token area_id with
  | Rejected e => (Rejected e, store)
  | Done (town, area) => (Done (PosterSessionArea.imageContents area), store)
  end.

End TownsController.

Import PosterSessionArea.
Import TownsController.

(** ** Derived notions *)

(** The occupants that are left when [player] is taken out. *)
Definition others (player : Player) (occupants : list Player) : list Player :=
  filter (fun eachPlayer => negb (String.eqb eachPlayer player)) occupants.

(** A run of the area: any number of steps, one after the other. *)
Inductive steps (super_remove_emits : Player -> PosterSessionArea.t -> list TownEvent)
  : PosterSessionArea.t * TownEmitter -> PosterSessionArea.t * TownEmitter -> Prop :=
| steps_done st : steps super_remove_emits st st
| steps_next st st' st'' :
    step super_remove_emits st st' ->
    steps super_remove_emits st' st'' ->
    steps super_remove_emits st st''.

(** The model that every observer receives after a reset. *)
Definition resetModel (this : PosterSessionArea.t) : PosterSessionAreaModel :=
  {| CoveyTownSocket.id := PosterSessionArea.id this;
     CoveyTownSocket.stars := 0;
     CoveyTownSocket.imageContents := None;
     CoveyTownSocket.title := None |}.

(** The error of [fromMapObject]. *)
Definition geometryError : JsError :=
  Error "Missing width and/or height in mapObject.".

(** ** Sample data *)

Definition samplePoster : PosterSessionAreaModel :=
  {| CoveyTownSocket.id := "P1";
     CoveyTownSocket.stars := -3;
     CoveyTownSocket.imageContents := Some "<payload>";
     CoveyTownSocket.title := Some "Keynote" |}.

Definition sampleBox : BoundingBox :=
  {| CoveyTownSocket.x := 10; CoveyTownSocket.y := 20;
     CoveyTownSocket.width := 100; CoveyTownSocket.height := 50 |}.

(** The area made from [samplePoster], with the given occupants. *)
Definition sampleArea (occupants : list Player) : PosterSessionArea.t :=
  {| _id := "P1"; _boundingBox := sampleBox; _occupants := occupants;
     _stars := 3; _title := Some "Keynote"; _imageContents := Some "<payload>" |}.

(** A base class that stays silent when a player leaves. *)
Definition silent : Player -> PosterSessionArea.t -> list TownEvent :=
  fun _ _ => [].

(** Modelled from the spec: a base class whose removal of an occupant emits
    a change event, as the contract of [InteractableArea] has it.  The event
    carries the model of the area; the occupants are not part of the
    model. *)
Definition announcing : Player -> PosterSessionArea.t -> list TownEvent :=
  fun _ this => [interactableUpdate (toModel this)].

Definition sampleTown : Town :=
  {| townID := "T";
     sessions := [("S", "alice")];
     interactables := [OtherArea "V1"; PosterArea (sampleArea ["alice"])];
     townEmitter := [otherEvent "playerJoined"] |}.

Definition sampleStore : TownsStore :=
  [ {| townID := "U"; sessions := []; interactables := []; townEmitter := [] |};
    sampleTown ].

(** * Properties *)

(** ** Sample runs *)

Example constructor_sample :
  constructor samplePoster sampleBox = Ok (sampleArea []).
Proof. reflexivity. Qed.

Example remove_sample_last :
  remove silent "alice" (sampleArea ["alice"]) [] =
  ({| _id := "P1"; _boundingBox := sampleBox; _occupants := [];
      _stars := 0; _title := None; _imageContents := None |},
   [interactableUpdate
      {| CoveyTownSocket.id := "P1"; CoveyTownSocket.stars := 0;
         CoveyTownSocket.imageContents := None; CoveyTownSocket.title := None |}]).
Proof. reflexivity. Qed.

Example remove_sample_not_last :
  remove silent "alice" (sampleArea ["alice"; "bob"]) [] = (sampleArea ["bob"], []).
Proof. reflexivity. Qed.

(** With a base class that emits a change event of its own on each
    departure, the town sees that event first, with the content still in
    place, and then the change event of the reset. *)
Example remove_sample_announcing_base :
  snd (remove announcing "alice" (sampleArea ["alice"]) []) =
  [interactableUpdate (toModel (sampleArea ["alice"]));
   interactableUpdate (resetModel (sampleArea ["alice"]))].
Proof. reflexivity. Qed.

(** [updateModel] stores whatever title and image payload it is given: the
    check of the payload is left to the caller. *)
Example updateModel_does_not_validate :
  updateModel
    {| CoveyTownSocket.id := "P1"; CoveyTownSocket.stars := 2;
       CoveyTownSocket.imageContents := None; CoveyTownSocket.title := Some "" |}
    (sampleArea ["alice"]) [] =
  ({| _id := "P1"; _boundingBox := sampleBox; _occupants := ["alice"];
      _stars := 2; _title := Some ""; _imageContents := None |}, []).
Proof. reflexivity. Qed.

(** ** Auxiliary facts *)

Lemma constructor_total (model : PosterSessionAreaModel) (coordinates : BoundingBox) :
  constructor model coordinates =
  Ok {| _id := CoveyTownSocket.id model; _boundingBox := coordinates;
        _occupants := [];
        _stars := Z.abs (CoveyTownSocket.stars model);
        _title := CoveyTownSocket.title model;
        _imageContents := CoveyTownSocket.imageContents model |}.
Proof. reflexivity. Qed.

Lemma length_le_0_iff {A : Type} (l : list A) :
  (Z.of_nat (List.length l) <=? 0) = true <-> l = [].
Proof.
  destruct l as [|a l]; cbn [List.length].
  - split; reflexivity.
  - split; [intros H | discriminate].
    apply Z.leb_le in H. lia.
Qed.

Lemma others_nil_iff (player : Player) (occupants : list Player) :
  others player occupants = [] <-> (forall q, In q occupants -> q = player).
Proof.
  unfold others. induction occupants as [|q0 rest IH]; cbn [filter].
  - split; [intros _ q [] | reflexivity].
  - destruct (String.eqb_spec q0 player) as [-> | Hne]; cbn [negb].
    + rewrite IH. split.
      * intros H q [<- | Hin]; [reflexivity | now apply H].
      * intros H q Hin. apply H. now right.
    + split; [discriminate |].
      intros H. exfalso. apply Hne, H. now left.
Qed.

Section RemoveFacts.

Variable super_remove_emits : Player -> PosterSessionArea.t -> list TownEvent.

Lemma remove_occupants player this townEmitter :
  _occupants (fst (remove super_remove_emits player this townEmitter)) =
  others player (_occupants this).
Proof.
  unfold remove, super_remove, set_occupants; cbn [_occupants].
  fold (others player (_occupants this)).
  destruct (Z.of_nat (List.length (others player (_occupants this))) <=? 0);
    reflexivity.
Qed.

(** When nobody is left, [remove] resets the content and emits the reset
    model after whatever the base class has emitted. *)
Lemma remove_when_emptied player this townEmitter :
  others player (_occupants this) = [] ->
  remove super_remove_emits player this townEmitter =
  ({| _id := _id this; _boundingBox := _boundingBox this; _occupants := [];
      _stars := 0; _title := None; _imageContents := None |},
   (townEmitter ++ super_remove_emits player this) ++
   [interactableUpdate
      {| CoveyTownSocket.id := _id this; CoveyTownSocket.stars := 0;
         CoveyTownSocket.imageContents := None;
         CoveyTownSocket.title := None |}]).
Proof.
  intros Hnil.
  unfold remove, super_remove, set_occupants; cbn [_occupants].
  fold (others player (_occupants this)). rewrite Hnil. reflexivity.
Qed.

(** When somebody is left, [remove] leaves the content as it is and emits
    nothing of its own. *)
Lemma remove_when_occupied player this townEmitter :
  others player (_occupants this) <> [] ->
  remove super_remove_emits player this townEmitter =
  (set_occupants (others player (_occupants this)) this,
   townEmitter ++ super_remove_emits player this).
Proof.
  intros Hne.
  unfold remove, super_remove; cbn [_occupants set_occupants].
  fold (others player (_occupants this)).
  destruct (Z.of_nat (List.length (others player (_occupants this))) <=? 0) eqn:E.
  - apply length_le_0_iff in E. contradiction.
  - reflexivity.
Qed.

Lemma remove_stars_nonneg player this townEmitter :
  0 <= _stars this ->
  0 <= _stars (fst (remove super_remove_emits player this townEmitter)).
Proof.
  intros H.
  destruct (list_eq_dec string_dec (others player (_occupants this)) [])
    as [Hnil | Hne].
  - rewrite (remove_when_emptied _ _ _ Hnil). cbn. lia.
  - rewrite (remove_when_occupied _ _ _ Hne). exact H.
Qed.

Lemma step_stars_nonneg st st' :
  step super_remove_emits st st' -> 0 <= _stars (fst st) -> 0 <= _stars (fst st').
Proof.
  intros Hstep. destruct Hstep as [m this em | p this em | occ evs this em];
    cbn [fst]; intros H.
  - cbn. apply Z.abs_nonneg.
  - now apply remove_stars_nonneg.
  - exact H.
Qed.

Lemma reachable_stars_nonneg st :
  reachable super_remove_emits st -> 0 <= _stars (fst st).
Proof.
  induction 1 as [model coordinates this em Hnew | st st' _ IH Hstep].
  - rewrite constructor_total in Hnew. injection Hnew as <-.
    cbn. apply Z.abs_nonneg.
  - exact (step_stars_nonneg _ _ Hstep IH).
Qed.

End RemoveFacts.

(** ** Removal of occupants *)

(** C1, as the specification states it, fails: with a base class whose
    removal emits a change event, the removal of the last occupant sends two
    change events through the town emitter, first the one of the base class,
    with the content still in place, then the one of the reset. *)
Lemma remove_last_occupant_emits_two_change_events :
  let this := sampleArea ["alice"] in
  _occupants this <> []
  /\ (forall q, In q (_occupants this) -> q = "alice")
  /\ changeEvents (snd (remove announcing "alice" this [])) =
       [interactableUpdate (toModel this); interactableUpdate (resetModel this)]
  /\ List.length (changeEvents (snd (remove announcing "alice" this []))) = 2%nat.
Proof.
  cbn zeta. split; [discriminate |]. split.
  - intros q [<- | []]. reflexivity.
  - split; reflexivity.
Qed.

(** C1, amended.  In a poster session area that has occupants, removing the
    last one with [remove] resets the content: the star count is 0, the
    title and the image payload are absent and nobody is left.  [remove]
    emits exactly one change event of its own, which carries the reset
    model and is the last event of the call; it comes after the events that
    the removal of the base class emits, so the call sends one change event
    more than the base class does. *)
Theorem remove_last_occupant_resets_and_emits_reset_model
  (super_remove_emits : Player -> PosterSessionArea.t -> list TownEvent)
  (player : Player) (this : PosterSessionArea.t) (townEmitter : TownEmitter)
  (Hpopulated : _occupants this <> [])
  (Hlast : forall q, In q (_occupants this) -> q = player) :
  exists this' emitted,
    remove super_remove_emits player this townEmitter =
      (this', townEmitter ++ emitted)
    /\ stars this' = 0
    /\ title this' = None
    /\ imageContents this' = None
    /\ _occupants this' = []
    /\ toModel this' = resetModel this
    /\ emitted =
         super_remove_emits player this ++ [interactableUpdate (resetModel this)]
    /\ changeEvents emitted =
         changeEvents (super_remove_emits player this)
         ++ [interactableUpdate (resetModel this)]
    /\ List.length (changeEvents emitted) =
         S (List.length (changeEvents (super_remove_emits player this))).
Proof.
  apply others_nil_iff in Hlast.
  assert (Hchange :
            changeEvents
              (super_remove_emits player this ++ [interactableUpdate (resetModel this)])
            = changeEvents (super_remove_emits player this)
              ++ [interactableUpdate (resetModel this)]).
  { unfold CoveyTownSocket.changeEvents. rewrite filter_app. reflexivity. }
  eexists.
  exists (super_remove_emits player this ++ [interactableUpdate (resetModel this)]).
  split.
  - rewrite (remove_when_emptied _ _ _ _ Hlast), app_assoc. reflexivity.
  - repeat split.
    + exact Hchange.
    + rewrite Hchange, length_app. cbn [List.length]. lia.
Qed.

Lemma remove_last_occupant_resets_and_emits_reset_model_witness :
  exists this' emitted,
    remove announcing "alice" (sampleArea ["alice"]) [otherEvent "playerJoined"] =
      (this', [otherEvent "playerJoined"] ++ emitted)
    /\ stars this' = 0
    /\ title this' = None
    /\ imageContents this' = None
    /\ _occupants this' = []
    /\ emitted =
         announcing "alice" (sampleArea ["alice"])
         ++ [interactableUpdate (resetModel (sampleArea ["alice"]))].
Proof.
  destruct (remove_last_occupant_resets_and_emits_reset_model
              announcing "alice" (sampleArea ["alice"]) [otherEvent "playerJoined"])
    as (this' & emitted & Hcall & Hstars & Htitle & Himage & Hocc & _ & Hemitted & _).
  3: { exists this', emitted. repeat split; assumption. }
  - discriminate.
  - intros q [<- | []]. reflexivity.
Defined.

(** C9.  Whenever no occupant is left after a call of [remove], the content
    is reset (star count 0, title and image payload absent) and the call
    emits a change event with the reset model, as its last event.  This
    includes the call on an area that had no occupant before: no transition
    from populated to empty takes place, and the change event is emitted all
    the same. *)
Theorem remove_resets_and_emits_whenever_empty
  (super_remove_emits : Player -> PosterSessionArea.t -> list TownEvent)
  (player : Player) (this : PosterSessionArea.t) (townEmitter : TownEmitter) :
  let resets_and_emits :=
    exists this',
      remove super_remove_emits player this townEmitter =
        (this',
         (townEmitter ++ super_remove_emits player this) ++
         [interactableUpdate (resetModel this)])
      /\ stars this' = 0 /\ title this' = None /\ imageContents this' = None in
  (_occupants (fst (remove super_remove_emits player this townEmitter)) = [] ->
   resets_and_emits)
  /\ (_occupants this = [] -> resets_and_emits).
Proof.
  cbn zeta.
  assert (Hreset : others player (_occupants this) = [] ->
                   exists this',
                     remove super_remove_emits player this townEmitter =
                       (this',
                        (townEmitter ++ super_remove_emits player this) ++
                        [interactableUpdate (resetModel this)])
                     /\ stars this' = 0 /\ title this' = None
                     /\ imageContents this' = None).
  { intros Hnil. rewrite (remove_when_emptied _ _ _ _ Hnil).
    eexists. split; [reflexivity | repeat split]. }
  split.
  - rewrite remove_occupants. exact Hreset.
  - intros Hnil. apply Hreset. unfold others. rewrite Hnil. reflexivity.
Qed.

Lemma remove_resets_and_emits_whenever_empty_witness :
  _occupants (sampleArea []) = []
  /\ exists this',
       remove announcing "alice" (sampleArea []) [] =
         (this',
          ([] ++ announcing "alice" (sampleArea [])) ++
          [interactableUpdate (resetModel (sampleArea []))])
       /\ stars this' = 0 /\ title this' = None /\ imageContents this' = None.
Proof.
  split; [reflexivity |].
  destruct (remove_resets_and_emits_whenever_empty
              announcing "alice" (sampleArea []) []) as [_ Halready].
  apply Halready. reflexivity.
Defined.

(** ** Star count *)

(** C2.  For every integer [n], of any sign, constructing an area from a
    model with star count [n] succeeds and stores [|n|], and [updateModel]
    with such a model stores [|n|]: the sign is never a reason to reject. *)
Theorem star_count_is_stored_as_absolute_value
  (n : Z) (model : PosterSessionAreaModel) (coordinates : BoundingBox)
  (this : PosterSessionArea.t) (townEmitter : TownEmitter) :
  let model_n :=
    {| CoveyTownSocket.id := CoveyTownSocket.id model;
       CoveyTownSocket.stars := n;
       CoveyTownSocket.imageContents := CoveyTownSocket.imageContents model;
       CoveyTownSocket.title := CoveyTownSocket.title model |} in
  (exists created,
     constructor model_n coordinates = Ok created /\ stars created = Z.abs n)
  /\ stars (fst (updateModel model_n this townEmitter)) = Z.abs n.
Proof.
  cbn zeta. split.
  - rewrite constructor_total. eexists. split; reflexivity.
  - reflexivity.
Qed.

(** C8.  The star count of a poster session area is never negative: it is
    at least 0 when the area has been constructed, [updateModel] and [remove]
    keep it so, an increment, which is an [updateModel] with one more star,
    keeps it so, and it is at least 0 in every reachable state. *)
Theorem star_count_never_negative
  (super_remove_emits : Player -> PosterSessionArea.t -> list TownEvent) :
  (forall model coordinates this,
     constructor model coordinates = Ok this -> 0 <= stars this)
  /\ (forall updatedModel this townEmitter,
        0 <= stars (fst (updateModel updatedModel this townEmitter)))
  /\ (forall player this townEmitter,
        0 <= stars this ->
        0 <= stars (fst (remove super_remove_emits player this townEmitter)))
  /\ (forall this townEmitter,
        0 <= stars (fst (updateModel (TownsController.oneMoreStar this) this
                           townEmitter)))
  /\ (forall st, reachable super_remove_emits st -> 0 <= stars (fst st)).
Proof.
  repeat split.
  - intros model coordinates this Hnew.
    rewrite constructor_total in Hnew. injection Hnew as <-.
    apply Z.abs_nonneg.
  - intros. apply Z.abs_nonneg.
  - intros player this townEmitter H. now apply remove_stars_nonneg.
  - intros. apply Z.abs_nonneg.
  - apply reachable_stars_nonneg.
Qed.

Lemma star_count_never_negative_witness :
  0 <= stars (fst (remove silent "alice"
                     (fst (updateModel samplePoster (sampleArea ["alice"; "bob"]) []))
                     [])).
Proof.
  destruct (star_count_never_negative silent) as (_ & _ & _ & _ & Hreach).
  apply Hreach.
  apply (reachable_step silent
           (updateModel samplePoster (sampleArea ["alice"; "bob"]) [])).
  - apply (reachable_step silent (sampleArea ["alice"; "bob"], [])).
    + apply (reachable_step silent (sampleArea [], [])).
      * apply (reachable_new silent samplePoster sampleBox). reflexivity.
      * exact (step_inherited silent ["alice"; "bob"] [] (sampleArea []) []).
    + apply step_updateModel.
  - exact (step_remove silent "alice"
             (fst (updateModel samplePoster (sampleArea ["alice"; "bob"]) [])) []).
Defined.

(** ** Update of the content *)

(** C7.  For every model, [updateModel] replaces the star count, by the
    absolute value of the given one, the title and the image payload
    together; it leaves the occupants, the identifier and the bounding region
    as they were, and it emits nothing: the town emitter is as before. *)
Theorem updateModel_replaces_content_only
  (newModel : PosterSessionAreaModel) (this : PosterSessionArea.t)
  (townEmitter : TownEmitter) :
  let (this', townEmitter') := updateModel newModel this townEmitter in
  stars this' = Z.abs (CoveyTownSocket.stars newModel)
  /\ title this' = CoveyTownSocket.title newModel
  /\ imageContents this' = CoveyTownSocket.imageContents newModel
  /\ _occupants this' = _occupants this
  /\ id this' = id this
  /\ _boundingBox this' = _boundingBox this
  /\ townEmitter' = townEmitter.
Proof.
  cbn. repeat split.
Qed.

(** ** Construction *)

(** C5, as the specification states it, fails: a model whose title is the
    empty text and whose image payload is absent is accepted by the
    constructor, which stores both as they are and throws nothing. *)
Lemma constructor_accepts_empty_title_and_absent_image :
  let model :=
    {| CoveyTownSocket.id := "P1"; CoveyTownSocket.stars := -3;
       CoveyTownSocket.imageContents := None;
       CoveyTownSocket.title := Some "" |} in
  (forall e, constructor model sampleBox <> Throw e)
  /\ exists this,
       constructor model sampleBox = Ok this
       /\ title this = Some "" /\ imageContents this = None.
Proof.
  cbn zeta. split.
  - intros e. rewrite constructor_total. discriminate.
  - rewrite constructor_total. eexists. repeat split.
Qed.

(** C5, amended.  The construction of a poster session area never fails:
    for every model, whatever the sign of its star count and whatever its
    title and image payload, present or absent, empty or not, the constructor
    returns an area that holds the absolute value of the star count and the
    title and the image payload as given.  None of the three field-specific
    errors is ever thrown. *)
Theorem constructor_never_fails
  (model : PosterSessionAreaModel) (coordinates : BoundingBox) :
  (exists this,
     constructor model coordinates = Ok this
     /\ stars this = Z.abs (CoveyTownSocket.stars model)
     /\ title this = CoveyTownSocket.title model
     /\ imageContents this = CoveyTownSocket.imageContents model
     /\ _occupants this = [])
  /\ forall e, constructor model coordinates <> Throw e.
Proof.
  rewrite constructor_total. split.
  - eexists. repeat split.
  - discriminate.
Qed.

(** ** Creation from the map *)

(** C4, as the specification states it, fails: a map object whose width and
    height are both present, the width being 0, is rejected. *)
Lemma fromMapObject_rejects_present_width_and_height :
  let mapObject :=
    {| mo_name := "P1"; mo_x := 10; mo_y := 20;
       mo_width := Some 0; mo_height := Some 50 |} in
  mo_width mapObject <> None
  /\ mo_height mapObject <> None
  /\ fromMapObject mapObject = Throw geometryError.
Proof.
  cbn zeta. repeat split; discriminate.
Qed.

Lemma falsy_true_iff (v : option Z) : falsy v = true <-> v = None \/ v = Some 0.
Proof.
  destruct v as [n|]; cbn.
  - rewrite Z.eqb_eq. split.
    + intros ->. now right.
    + intros [H | H]; [discriminate | now injection H].
  - split; [now left | reflexivity].
Qed.

(** C4, amended.  [fromMapObject] fails, with the error of the missing
    geometry, exactly when the width or the height of the map object is
    missing or is 0; for every map object whose width and height are both
    present and different from 0 it succeeds and gives an area named after
    the map object, on its bounding region, without occupants and in the
    initial empty content state: star count 0, title and image payload
    absent. *)
Theorem fromMapObject_fails_iff_width_or_height_falsy (mapObject : ITiledMapObject) :
  (fromMapObject mapObject = Throw geometryError
   <-> (mo_width mapObject = None \/ mo_width mapObject = Some 0)
       \/ (mo_height mapObject = None \/ mo_height mapObject = Some 0))
  /\ ((forall e, fromMapObject mapObject = Throw e -> e = geometryError))
  /\ (forall w h,
        mo_width mapObject = Some w -> mo_height mapObject = Some h ->
        w <> 0 -> h <> 0 ->
        fromMapObject mapObject =
        Ok {| _id := mo_name mapObject;
              _boundingBox :=
                {| CoveyTownSocket.x := mo_x mapObject;
                   CoveyTownSocket.y := mo_y mapObject;
                   CoveyTownSocket.width := w;
                   CoveyTownSocket.height := h |};
              _occupants := [];
              _stars := 0; _title := None; _imageContents := None |}).
Proof.
  unfold fromMapObject. cbn zeta.
  rewrite <- !falsy_true_iff, <- orb_true_iff.
  destruct (falsy (mo_width mapObject) || falsy (mo_height mapObject)) eqn:E.
  - repeat split; try reflexivity.
    + intros e H. now injection H as <-.
    + intros w h Hw Hh Hw0 Hh0. rewrite Hw, Hh in E. cbn in E.
      apply orb_true_iff in E. rewrite !Z.eqb_eq in E. lia.
  - rewrite constructor_total. repeat split; try discriminate.
    intros w h Hw Hh _ _. rewrite Hw, Hh. reflexivity.
Qed.

Lemma fromMapObject_fails_iff_width_or_height_falsy_witness :
  fromMapObject
    {| mo_name := "P1"; mo_x := 10; mo_y := 20;
       mo_width := Some 100; mo_height := Some 50 |} =
  Ok {| _id := "P1"; _boundingBox := sampleBox; _occupants := [];
        _stars := 0; _title := None; _imageContents := None |}.
Proof.
  destruct (fromMapObject_fails_iff_width_or_height_falsy
              {| mo_name := "P1"; mo_x := 10; mo_y := 20;
                 mo_width := Some 100; mo_height := Some 50 |})
    as (_ & _ & Hok).
  apply (Hok 100 50); [reflexivity | reflexivity | lia | lia].
Defined.

(** C10.  [fromMapObject] fails with the error of the missing geometry for
    every map object whose width is 0 or whose height is 0, and not only when
    one of the two is absent: the guard rejects every falsy value. *)
Theorem fromMapObject_rejects_zero_width_or_height (mapObject : ITiledMapObject)
  (Hzero : mo_width mapObject = Some 0 \/ mo_height mapObject = Some 0) :
  fromMapObject mapObject = Throw geometryError.
Proof.
  unfold fromMapObject. cbn zeta.
  destruct Hzero as [-> | ->]; cbn [falsy Z.eqb orb].
  - reflexivity.
  - rewrite orb_true_r. reflexivity.
Qed.

Lemma fromMapObject_rejects_zero_width_or_height_witness :
  fromMapObject
    {| mo_name := "P1"; mo_x := 10; mo_y := 20;
       mo_width := Some 100; mo_height := Some 0 |} = Throw geometryError.
Proof.
  apply fromMapObject_rejects_zero_width_or_height.
  right. reflexivity.
Defined.

(** ** The dispatcher *)

Example resolve_sample :
  resolve sampleStore "T" "S" "P1" = Done (sampleTown, sampleArea ["alice"]).
Proof. reflexivity. Qed.

Example resolve_sample_wrong_variant :
  resolve sampleStore "T" "S" "V1" = Rejected InvalidInteractableIDError.
Proof. reflexivity. Qed.

Example incrementPosterAreaStars_sample :
  fst (incrementPosterAreaStars sampleStore "T" "P1" "S") = Done 4.
Proof. reflexivity. Qed.

Lemma find_map_replace {A : Type} (key : A -> string) (k : string) (x' : A)
  (l : list A) (x : A) :
  find (fun y => String.eqb (key y) k) l = Some x ->
  key x' = k ->
  find (fun y => String.eqb (key y) k)
    (map (fun y => if String.eqb (key y) k then x' else y) l) = Some x'.
Proof.
  intros Hfind Hkey. induction l as [|a l IH]; cbn in *; [discriminate |].
  destruct (String.eqb (key a) k) eqn:E.
  - cbn. now rewrite Hkey, String.eqb_refl.
  - cbn. rewrite E. now apply IH.
Qed.

Lemma find_key {A : Type} (key : A -> string) (k : string) (l : list A) (x : A) :
  find (fun y => String.eqb (key y) k) l = Some x -> key x = k.
Proof.
  intros H. apply find_some in H. destruct H as [_ H].
  now apply String.eqb_eq.
Qed.

Lemma resolve_Done store town_id token area_id town area :
  resolve store town_id token area_id = Done (town, area) ->
  getTownByID store town_id = Some town
  /\ (exists player, getPlayerBySessionToken town token = Some player)
  /\ getInteractable town area_id = Some (PosterArea area).
Proof.
  unfold resolve, getPosterSessionArea.
  destruct (getTownByID store town_id) as [town0|]; [| discriminate].
  destruct (getPlayerBySessionToken town0 token) as [player|] eqn:Hp; [| discriminate].
  destruct (getInteractable town0 area_id) as [[area0 | other]|] eqn:Ha;
    try discriminate.
  intros H. injection H as <- <-.
  split; [reflexivity | split; [eauto | exact Ha]].
Qed.

(** A committed mutation that keeps the identifier of the area is found
    again in the store, and the town has emitted one more event, the model of
    the mutated area. *)
Lemma commit_lookup store town_id token area_id town area area' em :
  resolve store town_id token area_id = Done (town, area) ->
  PosterSessionArea.id area' = PosterSessionArea.id area ->
  exists town',
    commit store town (area', em) = putTown town' store
    /\ getTownByID (putTown town' store) town_id = Some town'
    /\ getPosterSessionArea town' area_id = Some area'
    /\ townEmitter town' = em ++ [interactableUpdate (toModel area')].
Proof.
  intros Hres Hid.
  apply resolve_Done in Hres. destruct Hres as (Htown & _ & Harea).
  pose proof (find_key townID town_id store town Htown) as Htid.
  pose proof (find_key interactableID area_id _ _ Harea) as Haid.
  cbn [interactableID] in Haid.
  exists (setEmitter (PosterSessionArea._emitAreaChanged area' em) (putArea area' town)).
  split; [reflexivity |]. split; [| split; [| reflexivity]].
  - unfold putTown, getTownByID. cbn [setEmitter putArea townID]. rewrite Htid.
    apply (find_map_replace townID town_id _ store town Htown).
    exact Htid.
  - unfold getPosterSessionArea, getInteractable.
    cbn [setEmitter putArea interactables]. rewrite Hid, Haid.
    rewrite (find_map_replace interactableID area_id (PosterArea area')
               (interactables town) (PosterArea area) Harea).
    + reflexivity.
    + cbn [interactableID]. now rewrite Hid.
Qed.




(** C6.  Every create or update of poster content whose title is missing or
    empty, or whose image payload is missing or empty, is rejected, and the
    store is left as it was: no area content, no occupant and no emitter has
    changed, so nothing was mutated and nothing was broadcast.  When the
    town, the session token and the area resolve, the rejection is a
    [ValidationError]. *)
Theorem createPosterSessionArea_rejects_invalid_payload
  (store : TownsStore) (town_id token : string) (model : PosterSessionAreaModel)
  (Hinvalid :
     (CoveyTownSocket.title model = None \/ CoveyTownSocket.title model = Some "")
     \/ (CoveyTownSocket.imageContents model = None
         \/ CoveyTownSocket.imageContents model = Some "")) :
  (exists e, createPosterSessionArea store town_id token model = (Rejected e, store))
  /\ (forall town area,
        resolve store town_id token (CoveyTownSocket.id model) = Done (town, area) ->
        createPosterSessionArea store town_id token model =
        (Rejected ValidationError, store)).
Proof.
  assert (Hcheck : validPayload model = false).
  { unfold validPayload.
    destruct Hinvalid as [[-> | ->] | [-> | ->]]; cbn;
      rewrite ?andb_false_r; reflexivity. }
  unfold createPosterSessionArea. rewrite Hcheck.
  destruct (resolve store town_id token (CoveyTownSocket.id model))
    as [[town area] | e].
  - split; [eauto | reflexivity].
  - split; [eauto | discriminate].
Qed.

Lemma createPosterSessionArea_rejects_invalid_payload_witness :
  createPosterSessionArea sampleStore "T" "S"
    {| CoveyTownSocket.id := "P1"; CoveyTownSocket.stars := 0;
       CoveyTownSocket.imageContents := None;
       CoveyTownSocket.title := Some "Test title" |} =
  (Rejected ValidationError, sampleStore).
Proof.
  refine (proj2 (createPosterSessionArea_rejects_invalid_payload
                   sampleStore "T" "S" _ _) sampleTown (sampleArea ["alice"]) _).
  - right. left. reflexivity.
  - reflexivity.
Defined.

(** * Further properties of the class *)

(** ** Models and instances *)

(** X1.  Reading the model back after [updateModel] gives the model that was
    written exactly when that model carries the identifier of the area and a
    star count that is not negative: the identifier of the model is not
    stored, and the sign of the star count is lost. *)
Theorem toModel_after_updateModel
  (updatedModel : PosterSessionAreaModel) (this : PosterSessionArea.t)
  (townEmitter : TownEmitter) :
  toModel (fst (updateModel updatedModel this townEmitter)) = updatedModel
  <-> CoveyTownSocket.id updatedModel = id this
      /\ 0 <= CoveyTownSocket.stars updatedModel.
Proof.
  destruct updatedModel as [mid mstars mimage mtitle].
  cbn. unfold toModel, id, stars, imageContents, title, Math_abs. cbn.
  split.
  - intros H. injection H as Hid Hstars.
    split; [now symmetry | rewrite <- Hstars; apply Z.abs_nonneg].
  - intros [<- Hstars]. now rewrite Z.abs_eq.
Qed.

Lemma toModel_after_updateModel_witness :
  toModel (fst (updateModel
                  {| CoveyTownSocket.id := "P1"; CoveyTownSocket.stars := 5;
                     CoveyTownSocket.imageContents := Some "<other>";
                     CoveyTownSocket.title := Some "Talk" |}
                  (sampleArea ["alice"]) [])) =
  {| CoveyTownSocket.id := "P1"; CoveyTownSocket.stars := 5;
     CoveyTownSocket.imageContents := Some "<other>";
     CoveyTownSocket.title := Some "Talk" |}.
Proof.
  apply toModel_after_updateModel. split; [reflexivity | cbn; lia].
Defined.

(** X2.  In every reachable state, writing the own model of the area back
    with [updateModel] changes nothing, neither in the area nor in the
    emitter. *)
Theorem updateModel_with_own_model
  (super_remove_emits : Player -> PosterSessionArea.t -> list TownEvent)
  (this : PosterSessionArea.t) (townEmitter : TownEmitter)
  (Hreach : reachable super_remove_emits (this, townEmitter)) :
  updateModel (toModel this) this townEmitter = (this, townEmitter).
Proof.
  apply reachable_stars_nonneg in Hreach. cbn [fst] in Hreach.
  destruct this as [i b o s t c]. cbn [_stars] in Hreach.
  unfold updateModel, toModel, Math_abs, stars, id, title, imageContents. cbn.
  now rewrite Z.abs_eq.
Qed.

Lemma updateModel_with_own_model_witness :
  updateModel (toModel (sampleArea ["alice"])) (sampleArea ["alice"]) [] =
  (sampleArea ["alice"], []).
Proof.
  apply (updateModel_with_own_model silent).
  apply (reachable_step silent (sampleArea [], [])).
  - apply (reachable_new silent samplePoster sampleBox). reflexivity.
  - exact (step_inherited silent ["alice"] [] (sampleArea []) []).
Defined.

(** X3.  The model of an area that has just been constructed is the model it
    was constructed from with the star count replaced by its absolute value;
    it is the very model exactly when the star count is not negative. *)
Theorem toModel_of_constructed
  (model : PosterSessionAreaModel) (coordinates : BoundingBox)
  (this : PosterSessionArea.t)
  (Hnew : constructor model coordinates = Ok this) :
  toModel this =
    {| CoveyTownSocket.id := CoveyTownSocket.id model;
       CoveyTownSocket.stars := Z.abs (CoveyTownSocket.stars model);
       CoveyTownSocket.imageContents := CoveyTownSocket.imageContents model;
       CoveyTownSocket.title := CoveyTownSocket.title model |}
  /\ (toModel this = model <-> 0 <= CoveyTownSocket.stars model).
Proof.
  rewrite constructor_total in Hnew. injection Hnew as <-.
  destruct model as [mid mstars mimage mtitle].
  unfold toModel, id, stars, imageContents, title. cbn.
  split; [reflexivity |]. split.
  - intros H. injection H as Hstars. rewrite <- Hstars. apply Z.abs_nonneg.
  - intros Hstars. now rewrite Z.abs_eq.
Qed.

Lemma toModel_of_constructed_witness :
  toModel (sampleArea []) =
    {| CoveyTownSocket.id := "P1"; CoveyTownSocket.stars := Z.abs (-3);
       CoveyTownSocket.imageContents := Some "<payload>";
       CoveyTownSocket.title := Some "Keynote" |}
  /\ (toModel (sampleArea []) = samplePoster <-> 0 <= -3).
Proof.
  apply (toModel_of_constructed samplePoster sampleBox (sampleArea [])).
  reflexivity.
Defined.

(** ** Runs of an area *)

Lemma others_idempotent (player : Player) (occupants : list Player) :
  others player (others player occupants) = others player occupants.
Proof.
  unfold others. induction occupants as [|q rest IH]; cbn [filter].
  - reflexivity.
  - destruct (negb (String.eqb q player)) eqn:E; cbn [filter].
    + rewrite E. now f_equal.
    + exact IH.
Qed.

Lemma others_In (player q : Player) (occupants : list Player) :
  In q (others player occupants) <-> In q occupants /\ q <> player.
Proof.
  unfold others. rewrite filter_In.
  destruct (String.eqb_spec q player) as [-> | Hne]; cbn [negb].
  - split; [intros [_ H]; discriminate | intros [_ H]; contradiction].
  - split; intros [H _]; split; auto.
Qed.

Section RunFacts.

Variable super_remove_emits : Player -> PosterSessionArea.t -> list TownEvent.

Lemma remove_frame player this townEmitter :
  _id (fst (remove super_remove_emits player this townEmitter)) = _id this
  /\ _boundingBox (fst (remove super_remove_emits player this townEmitter))
     = _boundingBox this.
Proof.
  destruct (list_eq_dec string_dec (others player (_occupants this)) [])
    as [Hnil | Hne].
  - rewrite (remove_when_emptied _ _ _ _ Hnil). split; reflexivity.
  - rewrite (remove_when_occupied _ _ _ _ Hne). split; reflexivity.
Qed.

Lemma step_frame st st' :
  step super_remove_emits st st' ->
  _id (fst st') = _id (fst st) /\ _boundingBox (fst st') = _boundingBox (fst st).
Proof.
  intros Hstep. destruct Hstep as [m this em | p this em | occ evs this em];
    cbn [fst].
  - split; reflexivity.
  - apply remove_frame.
  - split; reflexivity.
Qed.

Lemma steps_frame st st' :
  steps super_remove_emits st st' ->
  _id (fst st') = _id (fst st) /\ _boundingBox (fst st') = _boundingBox (fst st).
Proof.
  induction 1 as [st | st st' st'' Hstep _ IH].
  - split; reflexivity.
  - destruct (step_frame _ _ Hstep) as [Hid Hbox].
    destruct IH as [IHid IHbox]. split; congruence.
Qed.

End RunFacts.

(** X4.  The identifier and the bounding region of an area are those it was
    constructed with, after any run of [updateModel], [remove] and inherited
    members: [updateModel] does not take over the identifier of the model it
    is given, whatever that identifier is. *)
Theorem identifier_and_region_are_fixed
  (super_remove_emits : Player -> PosterSessionArea.t -> list TownEvent)
  (model : PosterSessionAreaModel) (coordinates : BoundingBox)
  (this : PosterSessionArea.t) (townEmitter : TownEmitter)
  (st : PosterSessionArea.t * TownEmitter)
  (Hnew : constructor model coordinates = Ok this)
  (Hrun : steps super_remove_emits (this, townEmitter) st) :
  id (fst st) = CoveyTownSocket.id model
  /\ _boundingBox (fst st) = coordinates
  /\ CoveyTownSocket.id (toModel (fst st)) = CoveyTownSocket.id model.
Proof.
  rewrite constructor_total in Hnew. injection Hnew as <-.
  destruct (steps_frame _ _ _ Hrun) as [Hid Hbox]. cbn in Hid, Hbox.
  unfold toModel, id. cbn. repeat split; assumption.
Qed.

Lemma identifier_and_region_are_fixed_witness :
  let st :=
    updateModel
      {| CoveyTownSocket.id := "P2"; CoveyTownSocket.stars := 1;
         CoveyTownSocket.imageContents := None; CoveyTownSocket.title := None |}
      (sampleArea []) [] in
  id (fst st) = "P1"
  /\ _boundingBox (fst st) = sampleBox
  /\ CoveyTownSocket.id (toModel (fst st)) = "P1".
Proof.
  apply (identifier_and_region_are_fixed silent samplePoster sampleBox
           (sampleArea []) []).
  - reflexivity.
  - eapply steps_next; [apply step_updateModel | apply steps_done].
Defined.

(** X5.  As long as another occupant stays, [remove] keeps the star count,
    the title and the image payload, takes the player out and keeps the
    other occupant, and emits nothing of its own: the emitter only receives
    what the base class emits. *)
Theorem remove_keeps_content_while_occupied
  (super_remove_emits : Player -> PosterSessionArea.t -> list TownEvent)
  (player other : Player) (this : PosterSessionArea.t) (townEmitter : TownEmitter)
  (Hin : In other (_occupants this))
  (Hother : other <> player) :
  exists this',
    remove super_remove_emits player this townEmitter =
      (this', townEmitter ++ super_remove_emits player this)
    /\ stars this' = stars this
    /\ title this' = title this
    /\ imageContents this' = imageContents this
    /\ In other (_occupants this')
    /\ ~ In player (_occupants this').
Proof.
  assert (Hstay : In other (others player (_occupants this)))
    by (apply others_In; now split).
  assert (Hne : others player (_occupants this) <> [])
    by (intros Hnil; rewrite Hnil in Hstay; exact Hstay).
  rewrite (remove_when_occupied _ _ _ _ Hne).
  eexists. split; [reflexivity |]. cbn.
  repeat split; try assumption.
  intros Hp. apply others_In in Hp. now destruct Hp.
Qed.

Lemma remove_keeps_content_while_occupied_witness :
  exists this',
    remove announcing "alice" (sampleArea ["alice"; "bob"]) [] =
      (this', [] ++ announcing "alice" (sampleArea ["alice"; "bob"]))
    /\ stars this' = 3
    /\ title this' = Some "Keynote"
    /\ imageContents this' = Some "<payload>"
    /\ In "bob" (_occupants this')
    /\ ~ In "alice" (_occupants this').
Proof.
  apply (remove_keeps_content_while_occupied
           announcing "alice" "bob" (sampleArea ["alice"; "bob"]) []).
  - right. left. reflexivity.
  - discriminate.
Defined.

(** X6.  Removing the same player a second time leaves the area as the first
    removal has left it: the occupants, the star count, the title and the
    image payload are the same, whatever has been emitted in between. *)
Theorem remove_twice_same_area
  (super_remove_emits : Player -> PosterSessionArea.t -> list TownEvent)
  (player : Player) (this : PosterSessionArea.t)
  (townEmitter townEmitter' : TownEmitter) :
  fst (remove super_remove_emits player
         (fst (remove super_remove_emits player this townEmitter)) townEmitter')
  = fst (remove super_remove_emits player this townEmitter).
Proof.
  destruct (list_eq_dec string_dec (others player (_occupants this)) [])
    as [Hnil | Hne].
  - rewrite (remove_when_emptied _ _ _ townEmitter Hnil). cbn [fst].
    rewrite remove_when_emptied by reflexivity. reflexivity.
  - rewrite (remove_when_occupied _ _ _ townEmitter Hne). cbn [fst].
    rewrite remove_when_occupied.
    + cbn [set_occupants _occupants _id _boundingBox _stars _title _imageContents].
      now rewrite others_idempotent.
    + cbn [set_occupants _occupants]. now rewrite others_idempotent.
Qed.

(** X7.  An area that was created from the map and has then gone through any
    run is, once a removal leaves it without occupant, back at the model it
    had when it was created, and that model is what the removal emits
    last. *)
Theorem reset_restores_the_model_of_the_map
  (super_remove_emits : Player -> PosterSessionArea.t -> list TownEvent)
  (mapObject : ITiledMapObject) (created : PosterSessionArea.t)
  (townEmitter : TownEmitter) (st : PosterSessionArea.t * TownEmitter)
  (player : Player)
  (Hmap : fromMapObject mapObject = Ok created)
  (Hrun : steps super_remove_emits (created, townEmitter) st)
  (Hempty :
     _occupants (fst (remove super_remove_emits player (fst st) (snd st))) = []) :
  toModel (fst (remove super_remove_emits player (fst st) (snd st)))
    = toModel created
  /\ snd (remove super_remove_emits player (fst st) (snd st))
     = (snd st ++ super_remove_emits player (fst st))
       ++ [interactableUpdate (toModel created)].
Proof.
  assert (Hcreated : toModel created = resetModel created).
  { unfold fromMapObject in Hmap. cbn zeta in Hmap.
    destruct (falsy (mo_width mapObject) || falsy (mo_height mapObject));
      [discriminate |].
    rewrite constructor_total in Hmap. injection Hmap as <-. reflexivity. }
  destruct (steps_frame _ _ _ Hrun) as [Hid _]. cbn [fst] in Hid.
  assert (Hreset : resetModel (fst st) = resetModel created)
    by (unfold resetModel, id; now rewrite Hid).
  rewrite remove_occupants in Hempty.
  rewrite (remove_when_emptied _ _ _ _ Hempty), Hcreated, <- Hreset.
  split; reflexivity.
Qed.

Lemma reset_restores_the_model_of_the_map_witness :
  let mapObject :=
    {| mo_name := "P1"; mo_x := 10; mo_y := 20;
       mo_width := Some 100; mo_height := Some 50 |} in
  let created :=
    {| _id := "P1"; _boundingBox := sampleBox; _occupants := [];
       _stars := 0; _title := None; _imageContents := None |} in
  toModel (fst (remove silent "alice" (sampleArea ["alice"]) []))
    = toModel created
  /\ snd (remove silent "alice" (sampleArea ["alice"]) [])
     = ([] ++ silent "alice" (sampleArea ["alice"]))
       ++ [interactableUpdate (toModel created)].
Proof.
  cbn zeta.
  apply (reset_restores_the_model_of_the_map silent
           {| mo_name := "P1"; mo_x := 10; mo_y := 20;
              mo_width := Some 100; mo_height := Some 50 |}
           {| _id := "P1"; _boundingBox := sampleBox; _occupants := [];
              _stars := 0; _title := None; _imageContents := None |}
           [] (sampleArea ["alice"], []) "alice").
  - reflexivity.
  - eapply steps_next.
    + apply (step_updateModel silent samplePoster).
    + eapply steps_next; [| apply steps_done].
      exact (step_inherited silent ["alice"] [] (sampleArea []) []).
  - reflexivity.
Defined.

(** * Further properties of the dispatcher

    The operations of the dispatcher follow the specification; the
    properties below are the ones that the test of the controller checks on
    them, and they rest on [updateModel] and [toModel] of the class. *)

Lemma commit_resolve store town_id token area_id town area area' em :
  resolve store town_id token area_id = Done (town, area) ->
  PosterSessionArea.id area' = PosterSessionArea.id area ->
  resolve (commit store town (area', em)) town_id token area_id =
  Done (setEmitter (PosterSessionArea._emitAreaChanged area' em) (putArea area' town),
        area').
Proof.
  intros Hres Hid.
  apply resolve_Done in Hres.
  destruct Hres as (Hfind & [player Hplayer] & Harea).
  pose proof (find_key townID town_id store town Hfind) as Htid.
  pose proof (find_key interactableID area_id _ _ Harea) as Haid.
  cbn [interactableID] in Haid.
  assert (Htown :
            getTownByID (commit store town (area', em)) town_id =
            Some (setEmitter (PosterSessionArea._emitAreaChanged area' em)
                    (putArea area' town))).
  { unfold commit, putTown, getTownByID. cbn [setEmitter putArea townID].
    rewrite Htid.
    apply (find_map_replace townID town_id _ store town Hfind). exact Htid. }
  unfold resolve. rewrite Htown.
  unfold getPlayerBySessionToken in *. cbn [setEmitter putArea sessions].
  rewrite Hplayer.
  unfold getPosterSessionArea, getInteractable.
  cbn [setEmitter putArea interactables]. rewrite Hid, Haid.
  rewrite (find_map_replace interactableID area_id (PosterArea area')
             (interactables town) (PosterArea area) Harea).
  - reflexivity.
  - cbn [interactableID]. now rewrite Hid.
Qed.

Lemma toModel_updateModel_same model this townEmitter :
  CoveyTownSocket.id model = PosterSessionArea.id this ->
  0 <= CoveyTownSocket.stars model ->
  toModel (fst (updateModel model this townEmitter)) = model.
Proof.
  intros Hid Hstars. destruct model as [mid mstars mimage mtitle].
  cbn in Hid, Hstars. subst mid.
  unfold toModel, id, stars, imageContents, title, Math_abs. cbn.
  now rewrite Z.abs_eq.
Qed.

Lemma resolve_area_id store town_id token area_id town area :
  resolve store town_id token area_id = Done (town, area) ->
  PosterSessionArea.id area = area_id.
Proof.
  intros Hres. apply resolve_Done in Hres. destruct Hres as (_ & _ & Harea).
  exact (find_key interactableID area_id _ _ Harea).
Qed.

(** X8.  A create or update that passes the four checks with a model whose
    star count is not negative broadcasts exactly one event, which carries
    the very model of the request, and the area is then found in the store
    with the content of the model. *)
Theorem createPosterSessionArea_broadcasts_the_model
  (store : TownsStore) (town_id token : string) (model : PosterSessionAreaModel)
  (town : Town) (area : PosterSessionArea.t)
  (Hres : resolve store town_id token (CoveyTownSocket.id model) = Done (town, area))
  (Hvalid : validPayload model = true)
  (Hstars : 0 <= CoveyTownSocket.stars model) :
  exists town' area',
    createPosterSessionArea store town_id token model = (Done tt, putTown town' store)
    /\ getTownByID (putTown town' store) town_id = Some town'
    /\ townEmitter town' = townEmitter town ++ [interactableUpdate model]
    /\ getPosterSessionArea town' (CoveyTownSocket.id model) = Some area'
    /\ toModel area' = model
    /\ _occupants area' = _occupants area.
Proof.
  pose proof (resolve_area_id _ _ _ _ _ _ Hres) as Hid.
  destruct (commit_lookup store town_id token (CoveyTownSocket.id model) town area
              (fst (updateModel model area (townEmitter town)))
              (townEmitter town) Hres eq_refl)
    as (town' & Hcommit & Htown & Harea & Hemit).
  assert (Hmodel : toModel (fst (updateModel model area (townEmitter town))) = model).
  { apply toModel_updateModel_same; [now symmetry | exact Hstars]. }
  exists town', (fst (updateModel model area (townEmitter town))).
  repeat split; try assumption.
  - unfold createPosterSessionArea. rewrite Hres, Hvalid. f_equal. exact Hcommit.
  - rewrite Hemit, Hmodel. reflexivity.
Qed.

Lemma createPosterSessionArea_broadcasts_the_model_witness :
  let model :=
    {| CoveyTownSocket.id := "P1"; CoveyTownSocket.stars := 0;
       CoveyTownSocket.imageContents := Some "<jpg>";
       CoveyTownSocket.title := Some "Test title" |} in
  exists town' area',
    createPosterSessionArea sampleStore "T" "S" model =
      (Done tt, putTown town' sampleStore)
    /\ getTownByID (putTown town' sampleStore) "T" = Some town'
    /\ townEmitter town' = townEmitter sampleTown ++ [interactableUpdate model]
    /\ getPosterSessionArea town' "P1" = Some area'
    /\ toModel area' = model
    /\ _occupants area' = ["alice"].
Proof.
  cbn zeta.
  apply (createPosterSessionArea_broadcasts_the_model sampleStore "T" "S"
           {| CoveyTownSocket.id := "P1"; CoveyTownSocket.stars := 0;
              CoveyTownSocket.imageContents := Some "<jpg>";
              CoveyTownSocket.title := Some "Test title" |}
           sampleTown (sampleArea ["alice"])).
  - reflexivity.
  - reflexivity.
  - cbn. lia.
Defined.

(** X9.  After a create or update that has passed the four checks, an
    increment on the same area with the same token succeeds and returns the
    absolute value of the star count of the model plus 1. *)
Theorem incrementPosterAreaStars_after_create
  (store : TownsStore) (town_id token : string) (model : PosterSessionAreaModel)
  (town : Town) (area : PosterSessionArea.t)
  (Hres : resolve store town_id token (CoveyTownSocket.id model) = Done (town, area))
  (Hvalid : validPayload model = true) :
  fst (createPosterSessionArea store town_id token model) = Done tt
  /\ fst (incrementPosterAreaStars
            (snd (createPosterSessionArea store town_id token model))
            town_id (CoveyTownSocket.id model) token)
     = Done (Z.abs (CoveyTownSocket.stars model) + 1).
Proof.
  unfold createPosterSessionArea. rewrite Hres, Hvalid. cbn [fst snd].
  split; [reflexivity |].
  unfold incrementPosterAreaStars.
  change (updateModel model area (townEmitter town))
    with (fst (updateModel model area (townEmitter town)), townEmitter town).
  rewrite (commit_resolve store town_id token (CoveyTownSocket.id model) town area
             (fst (updateModel model area (townEmitter town))) (townEmitter town)
             Hres eq_refl).
  cbn. unfold Math_abs, stars. cbn.
  f_equal. apply Z.abs_eq. pose proof (Z.abs_nonneg (CoveyTownSocket.stars model)). lia.
Qed.

Lemma incrementPosterAreaStars_after_create_witness :
  let model :=
    {| CoveyTownSocket.id := "P1"; CoveyTownSocket.stars := 0;
       CoveyTownSocket.imageContents := Some "<jpg>";
       CoveyTownSocket.title := Some "Test title" |} in
  fst (createPosterSessionArea sampleStore "T" "S" model) = Done tt
  /\ fst (incrementPosterAreaStars
            (snd (createPosterSessionArea sampleStore "T" "S" model)) "T" "P1" "S")
     = Done (Z.abs 0 + 1).
Proof.
  cbn zeta.
  apply (incrementPosterAreaStars_after_create sampleStore "T" "S"
           {| CoveyTownSocket.id := "P1"; CoveyTownSocket.stars := 0;
              CoveyTownSocket.imageContents := Some "<jpg>";
              CoveyTownSocket.title := Some "Test title" |}
           sampleTown (sampleArea ["alice"])); reflexivity.
Defined.

(** X10.  After a create or update that has passed the four checks, fetching
    the image contents of the same area with the same token returns the image
    payload of the model, and leaves the store, with its emitters, as the
    create has left it. *)
Theorem getPosterAreaImageContents_after_create
  (store : TownsStore) (town_id token : string) (model : PosterSessionAreaModel)
  (town : Town) (area : PosterSessionArea.t)
  (Hres : resolve store town_id token (CoveyTownSocket.id model) = Done (town, area))
  (Hvalid : validPayload model = true) :
  let store' := snd (createPosterSessionArea store town_id token model) in
  getPosterAreaImageContents store' town_id (CoveyTownSocket.id model) token
  = (Done (CoveyTownSocket.imageContents model), store').
Proof.
  unfold createPosterSessionArea. rewrite Hres, Hvalid. cbn [snd]. cbn zeta.
  unfold getPosterAreaImageContents.
  change (updateModel model area (townEmitter town))
    with (fst (updateModel model area (townEmitter town)), townEmitter town).
  rewrite (commit_resolve store town_id token (CoveyTownSocket.id model) town area
             (fst (updateModel model area (townEmitter town))) (townEmitter town)
             Hres eq_refl).
  reflexivity.
Qed.

Lemma getPosterAreaImageContents_after_create_witness :
  let model :=
    {| CoveyTownSocket.id := "P1"; CoveyTownSocket.stars := 0;
       CoveyTownSocket.imageContents := Some "<jpg>";
       CoveyTownSocket.title := Some "Test title" |} in
  let store' := snd (createPosterSessionArea sampleStore "T" "S" model) in
  getPosterAreaImageContents store' "T" "P1" "S" = (Done (Some "<jpg>"), store').
Proof.
  cbn zeta.
  apply (getPosterAreaImageContents_after_create sampleStore "T" "S"
           {| CoveyTownSocket.id := "P1"; CoveyTownSocket.stars := 0;
              CoveyTownSocket.imageContents := Some "<jpg>";
              CoveyTownSocket.title := Some "Test title" |}
           sampleTown (sampleArea ["alice"])); reflexivity.
Defined.
